(** * Response shaping of the LLM visualization backend (backend/app.py)

    The service wraps a pretrained tokenizer and causal language model and
    shapes their outputs into JSON dictionaries.  The tokenizer, the model
    and the PCA solver are external collaborators: they are records of
    functions here, and every handler is a function of them.  What is
    embedded from the source is the code of the six handlers.

    Conventions of the embedding:
    - a Python [str] is the list of its Unicode code points ([pystr]);
    - a tensor element (and a Python float) is a real number: [torch.softmax],
      [torch.norm] and [torch.topk] are taken at their mathematical meaning;
    - every tensor the handlers see has a leading batch dimension of size one
      (one text per request), which is the type [batch1];
    - an exception raised inside a [try] block is the result [None] of the
      block's body, and the [except] clause is the handler's [match] on it;
    - a JSON response is a [json] value, a dictionary being the list of its
      (key, value) pairs in insertion order;
    - the [print] calls write to the server log only and are left out. *)

From Stdlib Require Import Reals Lra.
From stdpp Require Import base option list sorting gmap strings.

Local Open Scope Z_scope.
Set Warnings "-register-all,-clear-no-such-hyp".

(** ** Python strings *)

Definition pystr := list N.

(** The code points of an ASCII literal. *)
Fixpoint py (s : string) : pystr :=
  match s with
  | EmptyString => []
  | String a s' => Ascii.N_of_ascii a :: py s'
  end.

(** U+0120, the word-boundary marker of the byte-level BPE vocabulary. *)
Definition marker : N := 288%N.
Definition space : N := 32%N.

(** [str.isspace] on one code point: the characters Python treats as
    whitespace. *)
Definition is_space (c : N) : bool :=
  ((9 <=? c) && (c <=? 13) || (28 <=? c) && (c <=? 32)
   || (c =? 133) || (c =? 160) || (c =? 5760)
   || (8192 <=? c) && (c <=? 8202)
   || (c =? 8232) || (c =? 8233) || (c =? 8239) || (c =? 8287)
   || (c =? 12288))%N.

Fixpoint lstrip (s : pystr) : pystr :=
  match s with
  | c :: s' => if is_space c then lstrip s' else s
  | [] => []
  end.

(** [s.strip()] *)
Definition strip (s : pystr) : pystr :=
  reverse (lstrip (reverse (lstrip s))).

(** ** JSON values *)

Inductive json :=
| JNull
| JInt (n : Z)
| JFloat (x : R)
| JStr (s : pystr)
| JList (l : list json)
| JDict (kvs : list (string * json)).

Definition keys (j : json) : list string :=
  match j with
  | JDict kvs => kvs.*1
  | _ => []
  end.

(** [d[k]] on a response dictionary. *)
Definition get (k : string) (j : json) : option json :=
  match j with
  | JDict kvs => (λ r, r.2.2) <$> list_find (λ kv, kv.1 = k) kvs
  | _ => None
  end.

(** [len(v)] of a JSON list. *)
Definition jlen (j : json) : option nat :=
  match j with
  | JList l => Some (length l)
  | _ => None
  end.

(** ** Tensors with a batch dimension of one *)

Record batch1 (A : Type) := Batch1 { unbatch : A }.
Arguments Batch1 {A} _.
Arguments unbatch {A} _.

(** [t.tolist()] of a batched tensor keeps the batch level as an outer list
    of one element. *)
Definition batch_tolist {A} (f : A → json) (t : batch1 A) : json :=
  JList [f (unbatch t)].

Definition ints_tolist (l : list Z) : json := JList (JInt <$> l).
Definition vec_tolist (v : list R) : json := JList (JFloat <$> v).
Definition mat_tolist (m : list (list R)) : json := JList (vec_tolist <$> m).
Definition cube_tolist (c : list (list (list R))) : json :=
  JList (mat_tolist <$> c).

(** ** The external collaborators *)

(** The tokenizer.  [tok_ids] is the subword algorithm (text to ids, special
    tokens included), which may raise; the two decoders are total on the ids
    of the vocabulary. *)
Record Tokenizer := {
  tok_ids : pystr → option (list Z);
  tok_id_to_token : Z → pystr;
  tok_decode : list Z → pystr;
}.

(** [tokenizer.encode(text, return_tensors="pt")] : a tensor of shape [1, n]. *)
Definition tok_encode (tk : Tokenizer) (text : pystr) : option (batch1 (list Z)) :=
  Batch1 <$> tok_ids tk text.

(** [tokenizer(text, return_tensors="pt", add_special_tokens=True)] : the
    ids and the mask of one unpadded sequence, both of shape [1, n]. *)
Record BatchEncoding := {
  input_ids : batch1 (list Z);
  attention_mask : batch1 (list Z);
}.

Definition tok_call (tk : Tokenizer) (text : pystr) : option BatchEncoding :=
  ids ← tok_ids tk text;
  Some {| input_ids := Batch1 ids;
          attention_mask := Batch1 (replicate (length ids) 1) |}.

(** [tokenizer.convert_ids_to_tokens(ids)] *)
Definition convert_ids_to_tokens (tk : Tokenizer) (ids : list Z) : list pystr :=
  tok_id_to_token tk <$> ids.

(** What a forward pass returns.  [out_logits] has shape [1, n, V];
    [out_hidden_states] is the tuple of the L+1 tensors of shape [1, n, H];
    [out_attentions] the tuple of the L tensors of shape [1, heads, n, n].
    An absent or empty tuple is the empty list. *)
Record ModelOutput := {
  out_logits : batch1 (list (list R));
  out_hidden_states : list (batch1 (list (list R)));
  out_attentions : list (batch1 (list (list (list R))));
}.

(** [model(input_ids, attention_mask=...)]; [None] is an exception. *)
Record Model := {
  forward : batch1 (list Z) → option (batch1 (list Z)) → option ModelOutput;
}.

(** [PCA(n_components=3).fit_transform(X)]; [None] is an exception. *)
Record PCA3 := {
  fit_transform : list (list R) → option (list (list R));
}.

(** ** /tokenize *)

Definition tokenize_failure : json :=
  JDict [("input_ids", JList []); ("tokens", JList []);
         ("attention_mask", JList [])].

(** The cleaning of one raw token (lines 77-80). *)
Definition clean_token (token : pystr) : pystr :=
  match token with
  | c :: rest => if (c =? marker)%N then space :: rest else token
  | [] => token
  end.

(** One iteration of the loop of lines 75-85 on the pair
    (cleaned_tokens, seen_tokens). *)
Definition tokenize_step (st : list pystr * gset pystr) (token : pystr)
  : list pystr * gset pystr :=
  let clean := clean_token token in
  if decide (clean ∉ st.2) then (st.1 ++ [clean], st.2 ∪ {[clean]}) else st.

Definition tokenize_loop (raw_tokens : list pystr) : list pystr :=
  (foldl tokenize_step ([], ∅) raw_tokens).1.

(** The [try] block of [tokenize_text]. *)
Definition tokenize_body (tk : Tokenizer) (text : pystr) : option json :=
  inputs ← tok_call tk text;
  let raw_tokens := convert_ids_to_tokens tk (unbatch (input_ids inputs)) in
  let input_ids := unbatch (input_ids inputs) in
  let cleaned_tokens := tokenize_loop raw_tokens in
  Some (JDict [("input_ids", ints_tolist input_ids);
               ("tokens", JList (JStr <$> cleaned_tokens));
               ("attention_mask",
                batch_tolist ints_tolist (attention_mask inputs))]).

Definition tokenize_text (tokenizer : option Tokenizer) (text : pystr) : json :=
  match tokenizer with
  | None => tokenize_failure
  | Some tk =>
      match tokenize_body tk text with
      | Some r => r
      | None => tokenize_failure
      end
  end.

(** ** The tensor operations of torch and numpy used by the handlers *)

Definition Rsum (l : list R) : R := foldr Rplus 0%R l.

(** [torch.softmax(x, dim=-1)] on a vector, over the real numbers: the
    rounding and the underflow of float32 are not represented, so only what
    does not depend on them is stated of the handlers. *)
Definition softmax (x : list R) : list R :=
  (λ xi, exp xi / Rsum (exp <$> x))%R <$> x.

(** [torch.norm(v)]: the 2-norm of a vector. *)
Definition norm (v : list R) : R := sqrt (Rsum ((λ x, x * x)%R <$> v)).

(** The order in which [torch.topk] returns (value, index) pairs: largest
    value first. *)
Definition desc (p q : R * nat) : Prop := (q.1 <= p.1)%R.

#[global] Instance desc_dec : RelDecision desc := λ p q, Rle_dec q.1 p.1.

(** [torch.topk(x, k, dim=-1)] on a vector: the [k] largest entries, sorted,
    with their indices; it raises when [k] exceeds the length. *)
Definition topk (x : list R) (k : nat) : option (list R * list nat) :=
  if decide (k ≤ length x)%nat then
    let top := take k (merge_sort desc (zip x (seq 0 (length x)))) in
    Some (top.*1, top.*2)
  else None.

(** [x[indices]] with a tensor of indices. *)
Definition index_select (x : list R) (indices : list nat) : option (list R) :=
  mapM (λ i, x !! i) indices.

(** [np.array(m).shape[1]] for a list of rows [m]: the common row length; an
    empty or ragged [m] has no such dimension and the expression raises. *)
Definition np_shape1 (m : list (list R)) : option nat :=
  match m with
  | [] => None
  | r :: rs =>
      if forallb (λ r', length r' =? length r)%nat rs
      then Some (length r) else None
  end.

(** ** /next_token *)

Definition next_token_failure : json :=
  JDict [("token", JStr []); ("token_id", JInt (-1));
         ("probability", JFloat 0); ("probs", JList [])].

(** One element of [probs_list] (line 136). *)
Definition prob_entry (e : pystr * (R * R)) : json :=
  JDict [("token", JStr (strip e.1)); ("prob", JFloat e.2.1);
         ("logit", JFloat e.2.2)].

(** The [try] block of [next_token_prediction]. *)
Definition next_token_body (tk : Tokenizer) (m : Model) (text : pystr)
  : option json :=
  inputs ← tok_encode tk text;
  outputs ← forward m inputs None;
  let logits := out_logits outputs in
  next_token_logits ← last (unbatch logits);
  let probs := softmax next_token_logits in
  '(top_probs, top_indices) ← topk probs 10;
  let top_probs_list := top_probs in
  let top_tokens := (λ idx, tok_decode tk [Z.of_nat idx]) <$> top_indices in
  top_logits ← index_select next_token_logits top_indices;
  let probs_list :=
    prob_entry <$> zip top_tokens (zip top_probs_list top_logits) in
  token ← strip <$> top_tokens !! 0%nat;
  token_id ← top_indices !! 0%nat;
  probability ← top_probs_list !! 0%nat;
  Some (JDict [("token", JStr token); ("token_id", JInt (Z.of_nat token_id));
               ("probability", JFloat probability);
               ("probs", JList probs_list)]).

Definition next_token_prediction (tokenizer : option Tokenizer)
    (model : option Model) (text : pystr) : json :=
  match tokenizer, model with
  | Some tk, Some m =>
      match next_token_body tk m text with
      | Some r => r
      | None => next_token_failure
      end
  | _, _ => next_token_failure
  end.

(** ** /residual_stream *)

(** The payload of the [except] clause (line 189). *)
Definition residual_stream_failure : json :=
  JDict [("layer_values", JList []); ("tokens", JList []);
         ("num_layers", JInt 0)].

(** The payload returned when the model is not loaded (line 163). *)
Definition residual_stream_unavailable : json :=
  JDict [("layer_values", JList [])].

(** The nested loops of lines 175-180. *)
Definition token_layer_values (hidden_states : list (batch1 (list (list R))))
    (num_tokens num_layers : nat) : option (list (list R)) :=
  mapM (λ token_idx,
          mapM (λ layer_idx,
                  layer ← hidden_states !! layer_idx;
                  vec ← unbatch layer !! token_idx;
                  Some (norm vec))
               (seq 0 num_layers))
       (seq 0 num_tokens).

(** The [try] block of [get_residual_stream]. *)
Definition residual_stream_body (tk : Tokenizer) (m : Model) (text : pystr)
  : option json :=
  inputs ← tok_call tk text;
  outputs ← forward m (input_ids inputs) (Some (attention_mask inputs));
  let hidden_states := out_hidden_states outputs in
  hs0 ← hidden_states !! 0%nat;
  let num_tokens := length (unbatch hs0) in
  let num_layers := length hidden_states in
  values ← token_layer_values hidden_states num_tokens num_layers;
  Some (JDict [("layer_values", mat_tolist values);
               ("tokens",
                JList (JStr <$> convert_ids_to_tokens tk
                                  (unbatch (input_ids inputs))));
               ("num_layers", JInt (Z.of_nat num_layers))]).

Definition get_residual_stream (tokenizer : option Tokenizer)
    (model : option Model) (text : pystr) : json :=
  match tokenizer, model with
  | Some tk, Some m =>
      match residual_stream_body tk m text with
      | Some r => r
      | None => residual_stream_failure
      end
  | _, _ => residual_stream_unavailable
  end.

(** ** /attention *)

Definition attention_failure : json :=
  JDict [("num_layers", JInt 0); ("attentions", JList [])].

(** The [try] block of [get_attention]. *)
Definition attention_body (tk : Tokenizer) (m : Model) (text : pystr)
  : option json :=
  inputs ← tok_call tk text;
  outputs ← forward m (input_ids inputs) (Some (attention_mask inputs));
  let attentions := out_attentions outputs in
  let attentions_data :=
    match attentions with
    | [] => []
    | _ => (λ layer, cube_tolist (unbatch layer)) <$> attentions
    end in
  Some (JDict [("num_layers", JInt (Z.of_nat (length attentions_data)));
               ("attentions", JList attentions_data)]).

Definition get_attention (tokenizer : option Tokenizer)
    (model : option Model) (text : pystr) : json :=
  match tokenizer, model with
  | Some tk, Some m =>
      match attention_body tk m text with
      | Some r => r
      | None => attention_failure
      end
  | _, _ => attention_failure
  end.

(** ** /embeddings *)

Definition embeddings_failure : json :=
  JDict [("num_layers", JInt 0); ("hidden_states", JList []);
         ("embeddings3d", JList [])].

(** Lines 241-250: the projection of the last layer, empty when the guard
    fails or when anything inside the inner [try] raises. *)
Definition embeddings3d_of (pca : PCA3) (hidden_states_data : list (list (list R)))
  : list (list R) :=
  match last hidden_states_data with
  | Some last_hidden =>
      if (0 <? length last_hidden)%nat then
        default []
          (shape1 ← np_shape1 last_hidden;
           if (3 <=? shape1)%nat then fit_transform pca last_hidden
           else Some [])
      else []
  | None => []
  end.

(** The outer [try] block of [get_embeddings]. *)
Definition embeddings_body (tk : Tokenizer) (m : Model) (pca : PCA3)
    (text : pystr) : option json :=
  inputs ← tok_call tk text;
  outputs ← forward m (input_ids inputs) (Some (attention_mask inputs));
  let hidden_states := out_hidden_states outputs in
  let hidden_states_data : list (list (list R)) :=
    match hidden_states with
    | [] => []
    | _ => unbatch <$> hidden_states
    end in
  let embeddings3d := embeddings3d_of pca hidden_states_data in
  Some (JDict [("num_layers", JInt (Z.of_nat (length hidden_states_data)));
               ("hidden_states", cube_tolist hidden_states_data);
               ("embeddings3d", mat_tolist embeddings3d)]).

Definition get_embeddings (tokenizer : option Tokenizer)
    (model : option Model) (pca : PCA3) (text : pystr) : json :=
  match tokenizer, model with
  | Some tk, Some m =>
      match embeddings_body tk m pca text with
      | Some r => r
      | None => embeddings_failure
      end
  | _, _ => embeddings_failure
  end.

(** ** /health *)

Definition health_check : json :=
  JDict [("status", JStr (py "ok")); ("model", JStr (py "gpt2"))].

(** ** What the specification says, in its own words *)

(** Deduplication by exact string equality in first-seen order: keep an
    element, drop its later copies. *)
Fixpoint dedup_first_seen (l : list pystr) : list pystr :=
  match l with
  | [] => []
  | x :: l' => x :: filter (λ y, y ≠ x) (dedup_first_seen l')
  end.

(** The display token list of /tokenize: cleaned, then deduplicated. *)
Definition display_tokens (raw_tokens : list pystr) : list pystr :=
  dedup_first_seen (clean_token <$> raw_tokens).

(** The model returns hidden states with one row per input token. *)
Definition model_hidden_rows (m : Model) : Prop :=
  ∀ ids mask out, forward m ids mask = Some out →
    Forall (λ h, length (unbatch h) = length (unbatch ids))
           (out_hidden_states out).



(** What [torch.topk] promises of the (value, index) pairs it returns: [k]
    pairs of the input, largest value first, at distinct indices, and no
    entry left out is larger than a selected one. *)
Definition is_topk (x : list R) (k : nat) (top : list (R * nat)) : Prop :=
  length top = k ∧
  StronglySorted desc top ∧
  (∀ p i, (p, i) ∈ top → x !! i = Some p) ∧
  NoDup top.*2 ∧
  (∀ q j, x !! j = Some q → j ∉ top.*2 → ∀ e, e ∈ top → (q <= e.1)%R).

(** The entry of [probs] for the pair [e] of a probability and a vocabulary
    id. *)
Definition top_entry (tk : Tokenizer) (logits : list R) (e : R * nat) : json :=
  JDict [("token", JStr (strip (tok_decode tk [Z.of_nat e.2])));
         ("prob", JFloat e.1);
         ("logit", JFloat (default 0%R (logits !! e.2)))].

(** ** A small tokenizer, model and solver to run the handlers on *)

Definition demo_vocab (id : Z) : pystr :=
  if id =? 15496 then py "Hello"
  else if id =? 995 then marker :: py "world"
  else if id =? 1169 then py "the"
  else if id =? 3797 then marker :: py "cat"
  else if id =? 262 then marker :: py "the"
  else [].

Definition demo_tokenizer : Tokenizer :=
  {| tok_ids text :=
       if decide (text = py "Hello world") then Some [15496; 995]
       else if decide (text = py "the cat the cat")
            then Some [1169; 3797; 262; 3797]
       else if decide (text = []) then Some []
       else None;
     tok_id_to_token := demo_vocab;
     tok_decode ids := mjoin ((λ id, clean_token (demo_vocab id)) <$> ids) |}.

(** Twelve vocabulary entries, three layers of width four, one head. *)
Definition demo_model : Model :=
  {| forward ids mask :=
       let n := length (unbatch ids) in
       Some {| out_logits :=
                 Batch1 ((λ _, INR <$> seq 0 12) <$> unbatch ids);
               out_hidden_states :=
                 (λ l, Batch1 ((λ id, [IZR id; INR l; 0; 0]%R) <$> unbatch ids))
                   <$> seq 0 3;
               out_attentions :=
                 (λ _, Batch1 [replicate n (replicate n 1%R)]) <$> seq 0 2 |} |}.

Definition demo_pca : PCA3 :=
  {| fit_transform X :=
       if decide (3 ≤ length X)%nat then Some (take 3 <$> X) else None |}.

(** ** Start-up (lines 34-44) *)

(** What [GPT2Tokenizer.from_pretrained] gives: the tokenizer with its pad
    and end-of-text tokens, either of which may be unset. *)
Record Pretrained := {
  pt_tokenizer : Tokenizer;
  pt_pad_token : option pystr;
  pt_eos_token : option pystr;
}.

(** The module-level globals after the start-up block. *)
Record Session := {
  ses_tokenizer : option Tokenizer;
  ses_model : option Model;
  ses_pad_token : option pystr;
}.

(** The start-up [try] block: the tokenizer is loaded, then the model (with
    its [eval()]), then the pad token is set; an exception at any step
    resets both globals. *)
Definition load (tokenizer_from_pretrained : option Pretrained)
    (model_from_pretrained : option Model) : Session :=
  match
    pt ← tokenizer_from_pretrained;
    m ← model_from_pretrained;
    Some (pt, m)
  with
  | Some (pt, m) =>
      {| ses_tokenizer := Some (pt_tokenizer pt);
         ses_model := Some m;
         ses_pad_token :=
           match pt_pad_token pt with
           | None => pt_eos_token pt
           | Some pad => Some pad
           end |}
  | None =>
      {| ses_tokenizer := None; ses_model := None; ses_pad_token := None |}
  end.

(** An entry of [probs] with the given token, probability and logit. *)
Definition entry_of (f : pystr * R * R) : json :=
  JDict [("token", JStr f.1.1); ("prob", JFloat f.1.2);
         ("logit", JFloat f.2)].

(** * Properties *)

(** ** Dictionaries *)

Lemma keys_tokenize_failure :
  keys tokenize_failure = ["input_ids"; "tokens"; "attention_mask"].
Proof. reflexivity. Qed.

(** ** /tokenize *)

Lemma clean_token_marker rest : clean_token (marker :: rest) = space :: rest.
Proof. reflexivity. Qed.

Lemma clean_token_other token :
  head token ≠ Some marker → clean_token token = token.
Proof.
  destruct token as [|c rest]; [done|]. simpl. intros Hc.
  destruct (N.eqb_spec c marker) as [->|]; [by destruct Hc|done].
Qed.

Lemma dedup_first_seen_elem_of x l : x ∈ dedup_first_seen l ↔ x ∈ l.
Proof.
  induction l as [|y l IH]; [done|]. simpl.
  rewrite !elem_of_cons, list_elem_of_filter, IH.
  destruct (decide (x = y)); naive_solver.
Qed.

Lemma dedup_first_seen_NoDup l : NoDup (dedup_first_seen l).
Proof.
  induction l as [|y l IH]; simpl; [constructor|].
  apply NoDup_cons. split.
  - rewrite list_elem_of_filter. naive_solver.
  - by apply NoDup_filter.
Qed.

Lemma dedup_first_seen_sublist l : sublist (dedup_first_seen l) l.
Proof.
  induction l as [|y l IH]; simpl; [constructor|].
  apply sublist_skip. etrans; [apply sublist_filter|done].
Qed.

Lemma dedup_first_seen_length l : (length (dedup_first_seen l) ≤ length l)%nat.
Proof. apply sublist_length, dedup_first_seen_sublist. Qed.

(** The loop with its [seen_tokens] set computes the first-seen
    deduplication of the cleaned tokens. *)
Lemma tokenize_loop_from (acc : list pystr) (seen : gset pystr) raw :
  (∀ x, x ∈ seen ↔ x ∈ acc) →
  (foldl tokenize_step (acc, seen) raw).1
  = acc ++ filter (λ y, y ∉ acc) (display_tokens raw).
Proof.
  unfold display_tokens.
  revert acc seen. induction raw as [|t raw IH]; intros acc seen Hseen; simpl.
  { by rewrite app_nil_r. }
  unfold tokenize_step at 2. simpl.
  set (c := clean_token t). destruct (decide (c ∉ seen)) as [Hc|Hc].
  - rewrite IH by (intros x; rewrite elem_of_union, elem_of_singleton,
                     elem_of_app, list_elem_of_singleton, Hseen; done).
    rewrite <-app_assoc. f_equal. simpl.
    rewrite filter_cons_True by (by rewrite <-Hseen).
    f_equal. rewrite list_filter_filter. apply list_filter_iff.
    intros x. rewrite elem_of_app, list_elem_of_singleton. naive_solver.
  - apply dec_stable in Hc. rewrite (IH _ _ Hseen). f_equal.
    rewrite filter_cons_False by (rewrite <-Hseen; naive_solver).
    rewrite list_filter_filter. apply list_filter_iff.
    intros x. rewrite <-Hseen. naive_solver.
Qed.

Lemma filter_nothing_seen (l : list pystr) :
  filter (λ y, y ∉ ([] : list pystr)) l = l.
Proof.
  induction l as [|x l IH]; [done|].
  rewrite filter_cons_True by set_solver. by rewrite IH.
Qed.

Lemma tokenize_loop_display raw : tokenize_loop raw = display_tokens raw.
Proof.
  unfold tokenize_loop. rewrite tokenize_loop_from by set_solver.
  simpl. apply filter_nothing_seen.
Qed.

(** The successful runs of the [try] block, and what they return. *)
Lemma tokenize_body_Some tk text r :
  tokenize_body tk text = Some r ↔
  ∃ ids, tok_ids tk text = Some ids ∧
    r = JDict [("input_ids", ints_tolist ids);
               ("tokens",
                JList (JStr <$> tokenize_loop (convert_ids_to_tokens tk ids)));
               ("attention_mask",
                JList [ints_tolist (replicate (length ids) 1)])].
Proof.
  unfold tokenize_body, tok_call. destruct (tok_ids tk text) as [ids|]; simpl.
  - split; [intros [= <-]; eauto|intros (? & [= <-] & ->); done].
  - split; [done|intros (? & [=] & _)].
Qed.

(** In every successful response the mask is one row inside an outer list:
    the row is as long as [input_ids] and holds only ones. *)
Lemma tokenize_attention_mask_row tk text r :
  tokenize_body tk text = Some r →
  ∃ ids, get "input_ids" r = Some (JList (JInt <$> ids)) ∧
    get "attention_mask" r
    = Some (JList [JList (replicate (length ids) (JInt 1))]).
Proof.
  intros (ids & _ & ->)%tokenize_body_Some. exists ids. split; [done|].
  unfold ints_tolist. by rewrite fmap_replicate.
Qed.

(** The response to "the cat the cat": four ids, three display tokens. *)
Example tokenize_the_cat :
  tokenize_text (Some demo_tokenizer) (py "the cat the cat")
  = JDict [("input_ids", JList [JInt 1169; JInt 3797; JInt 262; JInt 3797]);
           ("tokens", JList [JStr (py "the"); JStr (py " cat");
                             JStr (py " the")]);
           ("attention_mask",
            JList [JList [JInt 1; JInt 1; JInt 1; JInt 1]])].
Proof. vm_compute. reflexivity. Qed.

(** C2, at the input "Hello world": [input_ids] is the flat list of the two
    ids, while [attention_mask] keeps the batch level, so that its length is
    one and its only element is the list [1, 1], not the number 1. *)
Theorem tokenize_attention_mask_nested :
  let r := tokenize_text (Some demo_tokenizer) (py "Hello world") in
  get "input_ids" r = Some (JList [JInt 15496; JInt 995]) ∧
  get "attention_mask" r = Some (JList [JList [JInt 1; JInt 1]]) ∧
  get "input_ids" r ≫= jlen = Some 2%nat ∧
  get "attention_mask" r ≫= jlen = Some 1%nat.
Proof. vm_compute. done. Qed.

(** C3: in a successful /tokenize response, [tokens] is obtained from the
    raw token sequence in two steps.  First every raw token is cleaned: a
    token that starts with the marker U+0120 (code point 288) has that
    first character replaced by a space (code point 32), and any other
    token is kept as it is.  Then the cleaned strings are deduplicated by
    string equality in first-seen order.  The result is no longer than
    [input_ids]. *)
Theorem tokenize_tokens_display tk text r :
  tokenize_body tk text = Some r →
  ∃ ids (cleaned : list pystr),
    tok_ids tk text = Some ids ∧
    get "input_ids" r = Some (JList (JInt <$> ids)) ∧
    Forall2 (λ raw c : pystr,
               (∀ rest, raw = 288%N :: rest → c = 32%N :: rest) ∧
               (head raw ≠ Some 288%N → c = raw))
            (convert_ids_to_tokens tk ids) cleaned ∧
    get "tokens" r = Some (JList (JStr <$> dedup_first_seen cleaned)) ∧
    (length (dedup_first_seen cleaned) ≤ length ids)%nat.
Proof.
  intros (ids & Hids & ->)%tokenize_body_Some.
  exists ids, (clean_token <$> convert_ids_to_tokens tk ids).
  split_and!; [done|done| | |].
  - apply Forall2_fmap_r, Forall_Forall2_diag, Forall_forall.
    intros raw _. split.
    + intros rest ->. apply clean_token_marker.
    + apply clean_token_other.
  - simpl. by rewrite tokenize_loop_display.
  - etrans; [apply dedup_first_seen_length|].
    unfold convert_ids_to_tokens. by rewrite !length_fmap.
Qed.

Lemma tokenize_tokens_display_witness :
  ∃ ids (cleaned : list pystr),
    tok_ids demo_tokenizer (py "the cat the cat") = Some ids ∧
    get "input_ids" (tokenize_text (Some demo_tokenizer) (py "the cat the cat"))
    = Some (JList (JInt <$> ids)) ∧
    Forall2 (λ raw c : pystr,
               (∀ rest, raw = 288%N :: rest → c = 32%N :: rest) ∧
               (head raw ≠ Some 288%N → c = raw))
            (convert_ids_to_tokens demo_tokenizer ids) cleaned ∧
    get "tokens" (tokenize_text (Some demo_tokenizer) (py "the cat the cat"))
    = Some (JList (JStr <$> dedup_first_seen cleaned)) ∧
    (length (dedup_first_seen cleaned) ≤ length ids)%nat.
Proof.
  apply (tokenize_tokens_display demo_tokenizer (py "the cat the cat")).
  vm_compute. reflexivity.
Defined.

(** ** torch.topk *)

#[global] Instance desc_trans : Transitive desc.
Proof. intros p q r. unfold desc. lra. Qed.

#[global] Instance desc_total : Total desc.
Proof. intros p q. unfold desc. lra. Qed.

Lemma elem_of_zip_seq (x : list R) p i :
  (p, i) ∈ zip x (seq 0 (length x)) ↔ x !! i = Some p.
Proof.
  rewrite list_elem_of_lookup. split.
  - intros (j & (Hp & Hi)%lookup_zip_Some). simpl in *.
    apply lookup_seq in Hi as [-> _]. done.
  - intros Hp. exists i. apply lookup_zip_Some. split; [done|]. simpl.
    apply lookup_seq. split; [done|]. by eapply lookup_lt_Some.
Qed.

(** The model of [topk] keeps the promise. *)
Lemma topk_Some x k vs ixs :
  topk x k = Some (vs, ixs) →
  ∃ top : list (R * nat), vs = top.*1 ∧ ixs = top.*2 ∧ is_topk x k top.
Proof.
  unfold topk, is_topk. case_decide as Hk; [|done]. intros [= <- <-].
  set (all := merge_sort desc (zip x (seq 0 (length x)))).
  assert (Hperm : all ≡ₚ zip x (seq 0 (length x)))
    by apply merge_sort_Permutation.
  assert (Hsorted : StronglySorted desc all)
    by apply (StronglySorted_merge_sort _).
  assert (Hlen : length all = length x).
  { rewrite Hperm, length_zip, length_seq. lia. }
  rewrite <-(take_drop k all) in Hsorted.
  exists (take k all). split_and!; try done.
  - rewrite length_take. lia.
  - by eapply StronglySorted_app_1_l.
  - intros p i Hin%subseteq_take. rewrite Hperm in Hin.
    by apply elem_of_zip_seq.
  - assert (Hnd : NoDup all.*2).
    { rewrite Hperm, snd_zip by (rewrite length_seq; lia). apply NoDup_seq. }
    rewrite <-(take_drop k all), fmap_app in Hnd.
    by apply NoDup_app in Hnd as (? & _ & _).
  - intros q j Hq Hj e He.
    assert (Hin : (q, j) ∈ take k all ++ drop k all).
    { rewrite take_drop, Hperm. by apply elem_of_zip_seq. }
    apply elem_of_app in Hin as [Hin|Hin].
    + destruct Hj. by apply (list_elem_of_fmap_2 snd) in Hin.
    + apply (StronglySorted_app_1_elem_of _ _ _ _ _ Hsorted He Hin).
Qed.

Lemma topk_is_Some x k : (k ≤ length x)%nat → is_Some (topk x k).
Proof. intros Hk. unfold topk. by case_decide. Qed.

Lemma topk_None x k : topk x k = None ↔ (length x < k)%nat.
Proof. unfold topk. case_decide; split; (done || lia). Qed.

(** ** /next_token *)

Lemma softmax_length x : length (softmax x) = length x.
Proof. unfold softmax. by rewrite length_fmap. Qed.


Lemma index_select_Some x ixs l :
  index_select x ixs = Some l → l = (λ i, default 0%R (x !! i)) <$> ixs.
Proof.
  unfold index_select. intros H%mapM_Some_1.
  induction H as [|i y ixs l Hi _ IH]; [done|]. simpl. by rewrite Hi, IH.
Qed.

Lemma index_select_is_Some x ixs :
  Forall (λ i, i < length x)%nat ixs → is_Some (index_select x ixs).
Proof.
  intros H. apply mapM_is_Some. eapply Forall_impl; [exact H|].
  intros i Hi. by apply lookup_lt_is_Some.
Qed.

Lemma zip3_fmap {A B C D} (f : A → B) (g : A → C) (h : A → D) (l : list A) :
  zip (f <$> l) (zip (g <$> l) (h <$> l)) = (λ e, (f e, (g e, h e))) <$> l.
Proof. induction l as [|e l IH]; [done|]. simpl. by f_equal. Qed.

Lemma probs_list_top tk logits (top : list (R * nat)) :
  prob_entry <$> zip ((λ idx, tok_decode tk [Z.of_nat idx]) <$> top.*2)
                     (zip top.*1 ((λ i, default 0%R (logits !! i)) <$> top.*2))
  = top_entry tk logits <$> top.
Proof. induction top as [|e top IH]; [done|]. simpl. f_equal. exact IH. Qed.

(** What a successful run of the [try] block returns: [top] is the list of
    (probability, id) pairs selected by [topk], [e0] its head. *)
Lemma next_token_body_Some tk m text r :
  next_token_body tk m text = Some r →
  ∃ ids out logits top e0 rest,
    tok_ids tk text = Some ids ∧
    forward m (Batch1 ids) None = Some out ∧
    last (unbatch (out_logits out)) = Some logits ∧
    is_topk (softmax logits) 10 top ∧
    top = e0 :: rest ∧
    r = JDict [("token", JStr (strip (tok_decode tk [Z.of_nat e0.2])));
               ("token_id", JInt (Z.of_nat e0.2));
               ("probability", JFloat e0.1);
               ("probs", JList (top_entry tk logits <$> top))].
Proof.
  unfold next_token_body, tok_encode.
  destruct (tok_ids tk text) as [ids|] eqn:Hids; [simpl|done].
  destruct (forward m (Batch1 ids) None) as [out|] eqn:Hout; [simpl|done].
  destruct (last (unbatch (out_logits out))) as [logits|] eqn:Hlast;
    [simpl|done].
  destruct (topk (softmax logits) 10) as [[vs ixs]|] eqn:Htop; [simpl|done].
  destruct (index_select logits ixs) as [top_logits|] eqn:Hsel; [simpl|done].
  destruct (topk_Some _ _ _ _ Htop) as (top & -> & -> & Htopk).
  pose proof Htopk as [Hlen _].
  apply index_select_Some in Hsel as ->.
  rewrite probs_list_top.
  destruct top as [|e0 rest]; [done|]. simpl.
  intros [= <-]. by exists ids, out, logits, (e0 :: rest), e0, rest.
Qed.

(** The [try] block succeeds as soon as the tokenizer and the model do, the
    sequence is not empty and the vocabulary has ten entries. *)
Lemma next_token_body_is_Some tk m text ids out logits :
  tok_ids tk text = Some ids →
  forward m (Batch1 ids) None = Some out →
  last (unbatch (out_logits out)) = Some logits →
  (10 ≤ length logits)%nat →
  is_Some (next_token_body tk m text).
Proof.
  intros Hids Hout Hlast Hlen. unfold next_token_body, tok_encode.
  rewrite Hids. simpl. rewrite Hout. simpl. rewrite Hlast. simpl.
  destruct (topk_is_Some (softmax logits) 10) as [[vs ixs] Htop];
    [by rewrite softmax_length|].
  rewrite Htop. simpl.
  destruct (topk_Some _ _ _ _ Htop) as (top & -> & -> & Hk & _ & Hin & _).
  destruct (index_select_is_Some logits top.*2) as [tl Hsel].
  { apply Forall_forall. intros i ([p i'] & -> & He)%list_elem_of_fmap.
    apply Hin, lookup_lt_Some in He. by rewrite softmax_length in He. }
  rewrite Hsel. simpl. destruct top as [|e0 rest]; [done|]. simpl. eauto.
Qed.

(** The head of the selection carries the largest value of the whole
    input. *)
Lemma is_topk_head_max x k e0 rest :
  is_topk x k (e0 :: rest) →
  x !! e0.2 = Some e0.1 ∧
  Forall (λ e, e.1 <= e0.1)%R (e0 :: rest) ∧
  (∀ q, q ∈ x → (q <= e0.1)%R).
Proof.
  intros (_ & Hsorted & Hin & _ & Hout).
  apply StronglySorted_cons in Hsorted as [Hhd _].
  assert (Hall : Forall (λ e, e.1 <= e0.1)%R (e0 :: rest)).
  { constructor; [lra|]. eapply Forall_impl; [exact Hhd|]. by intros e. }
  split_and!; [|done|].
  - apply Hin. destruct e0. constructor.
  - intros q [j Hj]%list_elem_of_lookup.
    destruct (decide (j ∈ (e0 :: rest).*2)) as [Hjin|Hjout].
    + apply list_elem_of_fmap in Hjin as ([p j'] & -> & He). simpl in Hj.
      rewrite (Hin _ _ He) in Hj. injection Hj as <-.
      by apply (proj1 (Forall_forall _ _) Hall (p, j')).
    + apply (Hout q j Hj Hjout e0). constructor.
Qed.


(** With fewer than ten vocabulary entries [topk] raises, and the handler
    answers the failure dictionary, whose [probs] is empty. *)
Lemma next_token_small_vocabulary tk m text ids out logits :
  tok_ids tk text = Some ids →
  forward m (Batch1 ids) None = Some out →
  last (unbatch (out_logits out)) = Some logits →
  (length logits < 10)%nat →
  next_token_prediction (Some tk) (Some m) text = next_token_failure.
Proof.
  intros Hids Hout Hlast Hlen.
  unfold next_token_prediction, next_token_body, tok_encode.
  rewrite Hids. simpl. rewrite Hout. simpl. rewrite Hlast. simpl.
  assert (Htop : topk (softmax logits) 10 = None)
    by (apply topk_None; by rewrite softmax_length).
  by rewrite Htop.
Qed.



(** C10: in a successful /next_token response the top-level fields are
    those of the first entry of [probs]; [probability] bounds every returned
    [prob], it is the probability of [token_id], and no vocabulary id has a
    larger one. *)
Theorem next_token_head_fields tk m text r :
  next_token_body tk m text = Some r →
  ∃ ids out logits token token_id probability logit rest,
    tok_ids tk text = Some ids ∧
    forward m (Batch1 ids) None = Some out ∧
    last (unbatch (out_logits out)) = Some logits ∧
    r = JDict [("token", JStr token);
               ("token_id", JInt (Z.of_nat token_id));
               ("probability", JFloat probability);
               ("probs",
                JList (JDict [("token", JStr token);
                              ("prob", JFloat probability);
                              ("logit", JFloat logit)] :: rest))] ∧
    Forall (λ entry, ∃ p, get "prob" entry = Some (JFloat p) ∧
                          (p <= probability)%R)
           (JDict [("token", JStr token); ("prob", JFloat probability);
                   ("logit", JFloat logit)] :: rest) ∧
    softmax logits !! token_id = Some probability ∧
    (∀ q, q ∈ softmax logits → (q <= probability)%R).
Proof.
  intros (ids & out & logits & top & e0 & rest & Hids & Hout & Hlast
          & Htopk & -> & ->)%next_token_body_Some.
  destruct (is_topk_head_max _ _ _ _ Htopk) as (Hp & Hall & Hmax).
  exists ids, out, logits, (strip (tok_decode tk [Z.of_nat e0.2])), e0.2, e0.1,
    (default 0%R (logits !! e0.2)), (top_entry tk logits <$> rest).
  split_and!; try done.
  change (Forall (λ entry, ∃ p, get "prob" entry = Some (JFloat p) ∧
                               (p <= e0.1)%R)
            (top_entry tk logits <$> e0 :: rest)).
  apply Forall_fmap. eapply Forall_impl; [exact Hall|].
  intros e He. by exists e.1.
Qed.

Lemma next_token_head_fields_witness :
  ∃ r, next_token_body demo_tokenizer demo_model (py "Hello world") = Some r ∧
    ∃ token token_id probability probs,
      r = JDict [("token", JStr token);
                 ("token_id", JInt (Z.of_nat token_id));
                 ("probability", JFloat probability);
                 ("probs", JList probs)] ∧
      head probs ≫= get "token" = Some (JStr token) ∧
      head probs ≫= get "prob" = Some (JFloat probability).
Proof.
  destruct (next_token_body_is_Some demo_tokenizer demo_model
              (py "Hello world") [15496; 995]
              {| out_logits := Batch1 [INR <$> seq 0 12; INR <$> seq 0 12];
                 out_hidden_states :=
                   (λ l, Batch1 ((λ id, [IZR id; INR l; 0; 0]%R)
                                   <$> [15496; 995])) <$> seq 0 3;
                 out_attentions :=
                   (λ _, Batch1 [replicate 2 (replicate 2 1%R)]) <$> seq 0 2 |}
              (INR <$> seq 0 12)
              eq_refl eq_refl eq_refl) as [r Hr]; [simpl; lia|].
  exists r. split; [exact Hr|].
  destruct (next_token_head_fields _ _ _ _ Hr)
    as (ids & out & logits & token & token_id & probability & logit & rest
        & _ & _ & _ & -> & _).
  by eexists token, token_id, probability, _.
Defined.

(** C6: when the tokenizer or the model is not loaded, or the [try] block
    raises, /next_token answers the fixed failure dictionary; the handler is
    a total function, so the client always gets a dictionary. *)
Theorem next_token_failure_payload tokenizer model text :
  tokenizer = None ∨ model = None ∨
  (∃ tk m, tokenizer = Some tk ∧ model = Some m ∧
           next_token_body tk m text = None) →
  next_token_prediction tokenizer model text
  = JDict [("token", JStr []); ("token_id", JInt (-1));
           ("probability", JFloat 0); ("probs", JList [])].
Proof.
  intros [->|[->|(tk & m & -> & -> & Hbody)]].
  - done.
  - by destruct tokenizer.
  - unfold next_token_prediction. by rewrite Hbody.
Qed.

Lemma next_token_failure_payload_witness :
  next_token_prediction (Some demo_tokenizer) (Some demo_model) (py "Hi")
  = JDict [("token", JStr []); ("token_id", JInt (-1));
           ("probability", JFloat 0); ("probs", JList [])].
Proof.
  apply next_token_failure_payload. right. right.
  exists demo_tokenizer, demo_model. split_and!; reflexivity.
Defined.

(** ** /residual_stream *)


(** The table the two loops build: one row per token index, one entry per
    layer index, each entry the norm of the vector at that place. *)
Lemma token_layer_values_Some hs nt nl values :
  token_layer_values hs nt nl = Some values →
  length values = nt ∧
  Forall (λ row, length row = nl) values ∧
  (∀ t l row v, values !! t = Some row → row !! l = Some v →
     ∃ layer vec, hs !! l = Some layer ∧ unbatch layer !! t = Some vec ∧
                  v = norm vec).
Proof.
  unfold token_layer_values. intros Hrows%mapM_Some_1. split_and!.
  - apply Forall2_length in Hrows. by rewrite length_seq in Hrows.
  - apply Forall_forall. intros row [t Ht]%list_elem_of_lookup.
    destruct (Forall2_lookup_r _ _ _ _ _ Hrows Ht) as (t' & _ & Hrow).
    apply length_mapM in Hrow. by rewrite length_seq in Hrow.
  - intros t l row v Ht Hl.
    destruct (Forall2_lookup_r _ _ _ _ _ Hrows Ht) as (t' & Ht' & Hrow).
    apply lookup_seq in Ht' as [-> _]. apply mapM_Some_1 in Hrow.
    destruct (Forall2_lookup_r _ _ _ _ _ Hrow Hl) as (l' & Hl' & Hv).
    apply lookup_seq in Hl' as [-> _]. simpl in Hv.
    destruct (hs !! l) as [layer|] eqn:Hlayer; [simpl in Hv|done].
    destruct (unbatch layer !! t) as [vec|] eqn:Hvec; [simpl in Hv|done].
    injection Hv as <-. by exists layer, vec.
Qed.

(** What a successful run of the [try] block returns. *)
Lemma residual_stream_body_Some tk m text r :
  residual_stream_body tk m text = Some r →
  ∃ ids out hs0 values,
    tok_ids tk text = Some ids ∧
    forward m (Batch1 ids) (Some (Batch1 (replicate (length ids) 1)))
    = Some out ∧
    out_hidden_states out !! 0%nat = Some hs0 ∧
    token_layer_values (out_hidden_states out) (length (unbatch hs0))
      (length (out_hidden_states out)) = Some values ∧
    r = JDict [("layer_values", mat_tolist values);
               ("tokens", JList (JStr <$> convert_ids_to_tokens tk ids));
               ("num_layers",
                JInt (Z.of_nat (length (out_hidden_states out))))].
Proof.
  unfold residual_stream_body, tok_call.
  destruct (tok_ids tk text) as [ids|] eqn:Hids; [simpl|done].
  destruct (forward m _ _) as [out|] eqn:Hout; [simpl|done].
  destruct (out_hidden_states out !! 0%nat) as [hs0|] eqn:Hhs0; [simpl|done].
  destruct (token_layer_values _ _ _) as [values|] eqn:Hvalues; [simpl|done].
  intros [= <-]. by exists ids, out, hs0, values.
Qed.

(** C1, with the model not loaded: /residual_stream answers a dictionary
    with the single key [layer_values]; [tokens] and [num_layers] are
    missing, unlike in the payload of the [except] clause. *)
Theorem residual_stream_unavailable_keys :
  get_residual_stream None None (py "Hello world")
  = JDict [("layer_values", JList [])] ∧
  keys (get_residual_stream None None (py "Hello world")) = ["layer_values"] ∧
  get "tokens" (get_residual_stream None None (py "Hello world")) = None ∧
  get "num_layers" (get_residual_stream None None (py "Hello world")) = None ∧
  keys residual_stream_failure = ["layer_values"; "tokens"; "num_layers"].
Proof. by split_and!. Qed.

(** Once the model is loaded, /residual_stream has its three keys on both
    paths. *)
Lemma residual_stream_available_keys tk m text :
  keys (get_residual_stream (Some tk) (Some m) text)
  = ["layer_values"; "tokens"; "num_layers"].
Proof.
  unfold get_residual_stream.
  destruct (residual_stream_body tk m text) as [r|] eqn:Hr; [|done].
  by apply residual_stream_body_Some in Hr as (? & ? & ? & ? & _ & _ & _ & _ & ->).
Qed.

(** C4 fails at "Hello world": the run succeeds and the second token of
    [tokens] still starts with the marker, so that [tokens] is not the list
    of the cleaned tokens. *)
Lemma residual_stream_tokens_keep_marker :
  is_Some (residual_stream_body demo_tokenizer demo_model (py "Hello world")) ∧
  get "tokens"
      (get_residual_stream (Some demo_tokenizer) (Some demo_model)
         (py "Hello world"))
  = Some (JList [JStr (py "Hello"); JStr (marker :: py "world")]) ∧
  get "tokens"
      (get_residual_stream (Some demo_tokenizer) (Some demo_model)
         (py "Hello world"))
  ≠ Some (JList (JStr <$> (clean_token
                             <$> convert_ids_to_tokens demo_tokenizer
                                   [15496; 995]))).
Proof.
  split_and!.
  - eexists. reflexivity.
  - reflexivity.
  - intros H. discriminate H.
Qed.

Lemma demo_model_hidden_rows : model_hidden_rows demo_model.
Proof.
  intros ids mask out [= <-]. simpl.
  repeat constructor; simpl; by rewrite length_fmap.
Qed.



(** C4, as the code has it: in a successful /residual_stream response,
    [tokens] is the raw token of each input id, in order, markers
    included. *)
Theorem residual_stream_tokens_raw tk m text r :
  residual_stream_body tk m text = Some r →
  ∃ ids, tok_ids tk text = Some ids ∧
    get "tokens" r = Some (JList (JStr <$> (tok_id_to_token tk <$> ids))).
Proof.
  intros (ids & out & hs0 & values & Hids & _ & _ & _ & ->)
    %residual_stream_body_Some.
  by exists ids.
Qed.

Lemma residual_stream_tokens_raw_witness :
  ∃ ids, tok_ids demo_tokenizer (py "Hello world") = Some ids ∧
    get "tokens"
        (get_residual_stream (Some demo_tokenizer) (Some demo_model)
           (py "Hello world"))
    = Some (JList (JStr <$> (tok_id_to_token demo_tokenizer <$> ids))).
Proof.
  apply (residual_stream_tokens_raw demo_tokenizer demo_model
           (py "Hello world")).
  reflexivity.
Defined.



(** ** /attention *)

(** C9: /attention always answers a dictionary whose [num_layers] is the
    length of its [attentions]; with the tokenizer or the model not loaded,
    and when the [try] block raises, it is the dictionary with zero and the
    empty list. *)
Theorem attention_num_layers tokenizer model tk m text :
  (∃ data : list json,
     get_attention tokenizer model text
     = JDict [("num_layers", JInt (Z.of_nat (length data)));
              ("attentions", JList data)]) ∧
  get_attention None model text
  = JDict [("num_layers", JInt 0); ("attentions", JList [])] ∧
  get_attention tokenizer None text
  = JDict [("num_layers", JInt 0); ("attentions", JList [])] ∧
  match attention_body tk m text with
  | Some r => get_attention (Some tk) (Some m) text = r
  | None =>
      get_attention (Some tk) (Some m) text
      = JDict [("num_layers", JInt 0); ("attentions", JList [])]
  end.
Proof.
  split_and!.
  - destruct tokenizer as [tk'|], model as [m'|]; try by exists [].
    unfold get_attention, attention_body, tok_call.
    destruct (tok_ids tk' text) as [ids|]; [simpl|by exists []].
    destruct (forward m' _ _) as [out|]; [simpl|by exists []].
    eexists. reflexivity.
  - done.
  - by destruct tokenizer.
  - unfold get_attention. by destruct (attention_body tk m text).
Qed.

(** ** /embeddings *)





(** What a successful run of the outer [try] block returns. *)
Lemma embeddings_body_Some tk m pca text r :
  embeddings_body tk m pca text = Some r →
  ∃ ids out,
    tok_ids tk text = Some ids ∧
    forward m (Batch1 ids) (Some (Batch1 (replicate (length ids) 1)))
    = Some out ∧
    r = JDict [("num_layers",
                JInt (Z.of_nat (length (out_hidden_states out))));
               ("hidden_states",
                cube_tolist (unbatch <$> out_hidden_states out));
               ("embeddings3d",
                mat_tolist (embeddings3d_of pca
                              (unbatch <$> out_hidden_states out)))].
Proof.
  unfold embeddings_body, tok_call.
  destruct (tok_ids tk text) as [ids|] eqn:Hids; [simpl|done].
  destruct (forward m _ _) as [out|] eqn:Hout; [simpl|done].
  intros [= <-]. exists ids, out. split_and!; try done.
  destruct (out_hidden_states out); [done|]. by rewrite length_fmap.
Qed.



(** With four tokens of width four the projection is populated. *)
Example embeddings_the_cat_populated :
  get "embeddings3d"
      (get_embeddings (Some demo_tokenizer) (Some demo_model) demo_pca
         (py "the cat the cat"))
  ≠ Some (JList []).
Proof. intros H. discriminate H. Qed.

(** ** The keys of the other responses *)

(** /tokenize, /next_token, /attention, /embeddings and /health answer the
    same keys on every path. *)
Lemma other_endpoints_keys tokenizer model pca text :
  keys (tokenize_text tokenizer text)
  = ["input_ids"; "tokens"; "attention_mask"] ∧
  keys (next_token_prediction tokenizer model text)
  = ["token"; "token_id"; "probability"; "probs"] ∧
  keys (get_attention tokenizer model text) = ["num_layers"; "attentions"] ∧
  keys (get_embeddings tokenizer model pca text)
  = ["num_layers"; "hidden_states"; "embeddings3d"] ∧
  keys health_check = ["status"; "model"].
Proof.
  split_and!; [| | | |done].
  - destruct tokenizer as [tk|]; [simpl|done].
    destruct (tokenize_body tk text) as [r|] eqn:Hr; [|done].
    by apply tokenize_body_Some in Hr as (? & _ & ->).
  - destruct tokenizer as [tk|], model as [m|]; try done. simpl.
    destruct (next_token_body tk m text) as [r|] eqn:Hr; [|done].
    by apply next_token_body_Some in Hr
      as (? & ? & ? & ? & ? & ? & _ & _ & _ & _ & _ & ->).
  - destruct tokenizer as [tk|], model as [m|]; try done.
    unfold get_attention, attention_body, tok_call.
    destruct (tok_ids tk text) as [ids|]; [simpl|done].
    by destruct (forward m _ _).
  - destruct tokenizer as [tk|], model as [m|]; try done. simpl.
    destruct (embeddings_body tk m pca text) as [r|] eqn:Hr; [|done].
    by apply embeddings_body_Some in Hr as (? & ? & _ & _ & ->).
Qed.

(** * Further properties of the handlers *)

(** ** /tokenize *)

Lemma filter_Forall_id {A} (P : A → Prop) `{∀ x, Decision (P x)} (l : list A) :
  Forall P l → filter P l = l.
Proof.
  induction 1 as [|x l Hx _ IH]; [done|].
  rewrite filter_cons_True by done. by rewrite IH.
Qed.

Lemma dedup_first_seen_NoDup_id l : NoDup l → dedup_first_seen l = l.
Proof.
  induction 1 as [|x l Hx _ IH]; [done|]. simpl. rewrite IH. f_equal.
  apply filter_Forall_id, Forall_forall. intros y Hy ->. done.
Qed.

Lemma dedup_first_seen_length_eq l :
  length (dedup_first_seen l) = length l ↔ NoDup l.
Proof.
  split; [|by intros ->%dedup_first_seen_NoDup_id].
  induction l as [|x l IH]; [constructor|]. simpl. intros [= Hlen].
  pose proof (length_filter (λ y, y ≠ x) (dedup_first_seen l)) as Hf.
  pose proof (dedup_first_seen_length l) as Hd.
  apply NoDup_cons. split; [|apply IH; lia].
  intros Hx. apply (proj2 (dedup_first_seen_elem_of _ _)) in Hx.
  apply (length_filter_lt (λ y, y ≠ x)) in Hx; [lia|naive_solver].
Qed.

Lemma clean_token_no_marker token : head (clean_token token) ≠ Some marker.
Proof.
  destruct token as [|c rest]; [done|]. simpl.
  destruct (N.eqb_spec c marker) as [->|Hc]; [done|]. simpl. congruence.
Qed.

(** X1: the display tokens of a successful /tokenize response hold no string
    twice, hold exactly the cleaned forms of the raw tokens, and none starts
    with the marker. *)
Theorem tokenize_tokens_distinct tk text r :
  tokenize_body tk text = Some r →
  ∃ ids tokens,
    tok_ids tk text = Some ids ∧
    get "tokens" r = Some (JList (JStr <$> tokens)) ∧
    NoDup tokens ∧
    (∀ s, s ∈ tokens ↔
          ∃ id, id ∈ ids ∧ s = clean_token (tok_id_to_token tk id)) ∧
    Forall (λ s, head s ≠ Some marker) tokens.
Proof.
  intros (ids & Hids & ->)%tokenize_body_Some.
  exists ids, (display_tokens (convert_ids_to_tokens tk ids)).
  split_and!; [done|simpl; by rewrite tokenize_loop_display| | |].
  - apply dedup_first_seen_NoDup.
  - intros s. unfold display_tokens, convert_ids_to_tokens.
    rewrite dedup_first_seen_elem_of, <-list_fmap_compose, list_elem_of_fmap.
    naive_solver.
  - apply Forall_forall. unfold display_tokens.
    intros s Hs. apply (proj1 (dedup_first_seen_elem_of _ _)) in Hs.
    apply list_elem_of_fmap in Hs as (t & -> & _). apply clean_token_no_marker.
Qed.

Lemma tokenize_tokens_distinct_witness :
  ∃ ids tokens,
    tok_ids demo_tokenizer (py "the cat the cat") = Some ids ∧
    get "tokens" (tokenize_text (Some demo_tokenizer) (py "the cat the cat"))
    = Some (JList (JStr <$> tokens)) ∧
    NoDup tokens ∧
    (∀ s, s ∈ tokens ↔
          ∃ id, id ∈ ids ∧ s = clean_token (tok_id_to_token demo_tokenizer id)) ∧
    Forall (λ s, head s ≠ Some marker) tokens.
Proof.
  apply (tokenize_tokens_distinct demo_tokenizer (py "the cat the cat")).
  vm_compute. reflexivity.
Defined.

(** X2: a successful /tokenize response has as many display tokens as ids
    exactly when no cleaned token repeats; the display tokens are then the
    cleaned raw tokens, one per id and in order. *)
Theorem tokenize_tokens_aligned_iff tk text r :
  tokenize_body tk text = Some r →
  ∃ ids tokens,
    tok_ids tk text = Some ids ∧
    get "input_ids" r = Some (JList (JInt <$> ids)) ∧
    get "tokens" r = Some (JList (JStr <$> tokens)) ∧
    (length tokens = length ids ↔
     NoDup (clean_token <$> convert_ids_to_tokens tk ids)) ∧
    (length tokens = length ids →
     tokens = clean_token <$> convert_ids_to_tokens tk ids).
Proof.
  intros (ids & Hids & ->)%tokenize_body_Some.
  exists ids, (display_tokens (convert_ids_to_tokens tk ids)).
  assert (Hlen : length (clean_token <$> convert_ids_to_tokens tk ids)
                 = length ids)
    by (unfold convert_ids_to_tokens; by rewrite !length_fmap).
  split_and!; [done|done|simpl; by rewrite tokenize_loop_display| |].
  - unfold display_tokens. rewrite <-Hlen. apply dedup_first_seen_length_eq.
  - unfold display_tokens. rewrite <-Hlen.
    intros Hnd%dedup_first_seen_length_eq.
    by apply dedup_first_seen_NoDup_id.
Qed.

Lemma tokenize_tokens_aligned_iff_witness :
  ∃ ids tokens,
    tok_ids demo_tokenizer (py "Hello world") = Some ids ∧
    get "input_ids" (tokenize_text (Some demo_tokenizer) (py "Hello world"))
    = Some (JList (JInt <$> ids)) ∧
    get "tokens" (tokenize_text (Some demo_tokenizer) (py "Hello world"))
    = Some (JList (JStr <$> tokens)) ∧
    (length tokens = length ids ↔
     NoDup (clean_token <$> convert_ids_to_tokens demo_tokenizer ids)) ∧
    (length tokens = length ids →
     tokens = clean_token <$> convert_ids_to_tokens demo_tokenizer ids).
Proof.
  apply (tokenize_tokens_aligned_iff demo_tokenizer (py "Hello world")).
  vm_compute. reflexivity.
Defined.

(** X3: /tokenize answers its failure dictionary exactly when the tokenizer is
    not loaded or raises: a successful response differs from it even for a
    text without tokens, whose mask is a list holding one empty list. *)
Theorem tokenize_failure_iff tokenizer text :
  tokenize_text tokenizer text = tokenize_failure ↔
  tokenizer = None ∨ ∃ tk, tokenizer = Some tk ∧ tok_ids tk text = None.
Proof.
  destruct tokenizer as [tk|]; [|naive_solver]. simpl.
  destruct (tokenize_body tk text) as [r|] eqn:Hr.
  - apply tokenize_body_Some in Hr as (ids & Hids & ->). split.
    + intros [=].
    + intros [[=]|(tk' & [= <-] & Hnone)]. congruence.
  - split; [|done]. intros _. right. exists tk. split; [done|].
    unfold tokenize_body, tok_call in Hr.
    by destruct (tok_ids tk text).
Qed.

(** ** strip *)

Lemma lstrip_head s c : head (lstrip s) = Some c → is_space c = false.
Proof.
  induction s as [|a s IH]; [done|]. simpl.
  destruct (is_space a) eqn:Ha; [done|]. simpl. by intros [= <-].
Qed.

Lemma lstrip_suffix s : ∃ k, s = k ++ lstrip s.
Proof.
  induction s as [|a s [k Hk]]; [by exists []|]. simpl.
  destruct (is_space a); [|by exists []].
  exists (a :: k). simpl. by f_equal.
Qed.

Lemma lstrip_id s :
  (∀ c, head s = Some c → is_space c = false) → lstrip s = s.
Proof.
  destruct s as [|a s]; [done|]. intros Ha. simpl. by rewrite (Ha a).
Qed.

(** [strip] leaves no whitespace at either end. *)
Lemma strip_ends s c :
  head (strip s) = Some c ∨ last (strip s) = Some c → is_space c = false.
Proof.
  unfold strip. set (t := lstrip s). set (u := lstrip (reverse t)).
  intros [Hhead|Hlast].
  - destruct (lstrip_suffix (reverse t)) as [k Hk]. fold u in Hk.
    apply (f_equal reverse) in Hk.
    rewrite reverse_involutive, reverse_app in Hk.
    apply (lstrip_head s). fold t. rewrite Hk.
    apply head_app_Some. by left.
  - rewrite last_reverse in Hlast. by apply lstrip_head in Hlast.
Qed.

(** Stripping twice is stripping once. *)
Lemma strip_idemp s : strip (strip s) = strip s.
Proof.
  assert (Hl : lstrip (strip s) = strip s).
  { apply lstrip_id. intros c Hc. apply (strip_ends s). by left. }
  unfold strip at 1. rewrite Hl. unfold strip.
  rewrite reverse_involutive. f_equal. apply lstrip_id.
  intros c Hc. by apply lstrip_head in Hc.
Qed.

(** ** /next_token, further *)

Lemma demo_next_token_success :
  is_Some (next_token_body demo_tokenizer demo_model (py "Hello world")).
Proof.
  apply (next_token_body_is_Some demo_tokenizer demo_model
           (py "Hello world") [15496; 995]
           {| out_logits := Batch1 [INR <$> seq 0 12; INR <$> seq 0 12];
              out_hidden_states :=
                (λ l, Batch1 ((λ id, [IZR id; INR l; 0; 0]%R)
                                <$> [15496; 995])) <$> seq 0 3;
              out_attentions :=
                (λ _, Batch1 [replicate 2 (replicate 2 1%R)]) <$> seq 0 2 |}
           (INR <$> seq 0 12) eq_refl eq_refl eq_refl).
  simpl. lia.
Qed.

(** The fields of a successful response in terms of the selection [top]. *)
Lemma next_token_body_fields tk m text r :
  next_token_body tk m text = Some r →
  ∃ logits (top : list (R * nat)) e0,
    is_topk (softmax logits) 10 top ∧ head top = Some e0 ∧
    get "token" r = Some (JStr (strip (tok_decode tk [Z.of_nat e0.2]))) ∧
    get "token_id" r = Some (JInt (Z.of_nat e0.2)) ∧
    get "probs" r
    = Some (JList (entry_of
                     <$> ((λ e, (strip (tok_decode tk [Z.of_nat e.2]), e.1,
                                 default 0%R (logits !! e.2))) <$> top))).
Proof.
  intros (ids & out & logits & top & e0 & rest & _ & _ & _ & Htopk & -> & ->)
    %next_token_body_Some.
  exists logits, (e0 :: rest), e0. split_and!; try done.
  simpl. do 2 f_equal. by rewrite <-list_fmap_compose.
Qed.

(** X4: the [try] block of /next_token raises exactly when the tokenizer
    raises, the model raises, the model returns no position, or the
    vocabulary has fewer than ten entries. *)
Theorem next_token_body_None_iff tk m text :
  next_token_body tk m text = None ↔
  tok_ids tk text = None ∨
  ∃ ids, tok_ids tk text = Some ids ∧
    (forward m (Batch1 ids) None = None ∨
     ∃ out, forward m (Batch1 ids) None = Some out ∧
       (unbatch (out_logits out) = [] ∨
        ∃ logits, last (unbatch (out_logits out)) = Some logits ∧
                  (length logits < 10)%nat)).
Proof.
  destruct (tok_ids tk text) as [ids|] eqn:Hids.
  2:{ unfold next_token_body, tok_encode. rewrite Hids. naive_solver. }
  destruct (forward m (Batch1 ids) None) as [out|] eqn:Hout.
  2:{ unfold next_token_body, tok_encode. rewrite Hids. simpl. rewrite Hout.
      naive_solver. }
  destruct (last (unbatch (out_logits out))) as [logits|] eqn:Hlast.
  2:{ unfold next_token_body, tok_encode. rewrite Hids. simpl. rewrite Hout.
      simpl. rewrite Hlast. apply last_None in Hlast. naive_solver. }
  destruct (decide (length logits < 10)%nat) as [Hfew|Hmany].
  - split.
    + intros _. right. exists ids. split; [done|]. right. exists out.
      split; [done|]. right. by exists logits.
    + intros _. unfold next_token_body, tok_encode.
      rewrite Hids. simpl. rewrite Hout. simpl. rewrite Hlast. simpl.
      assert (Htop : topk (softmax logits) 10 = None)
        by (apply topk_None; by rewrite softmax_length).
      by rewrite Htop.
  - destruct (next_token_body_is_Some _ _ _ _ _ _ Hids Hout Hlast) as [r Hr];
      [lia|].
    rewrite Hr. split; [done|].
    intros [[=]|(ids' & [= <-] & [Hnone|(out' & Hout' & Hcase)])].
    + congruence.
    + rewrite Hout in Hout'. injection Hout' as <-.
      destruct Hcase as [Hnil|(logits' & Hlast' & Hfew)].
      * by rewrite Hnil in Hlast.
      * rewrite Hlast in Hlast'. injection Hlast' as <-. lia.
Qed.

(** X5: a client can tell a failed /next_token from a successful one by either
    field: [token_id] is -1, and [probs] is empty, exactly in the failure
    dictionary. *)
Theorem next_token_failure_detectable tokenizer model text :
  (get "token_id" (next_token_prediction tokenizer model text)
   = Some (JInt (-1))
   ↔ next_token_prediction tokenizer model text = next_token_failure) ∧
  (get "probs" (next_token_prediction tokenizer model text)
   = Some (JList [])
   ↔ next_token_prediction tokenizer model text = next_token_failure).
Proof.
  destruct tokenizer as [tk|], model as [m|]; try done.
  unfold next_token_prediction.
  destruct (next_token_body tk m text) as [r|] eqn:Hr; [|done].
  apply next_token_body_Some in Hr
    as (ids & out & logits & top & e0 & rest & _ & _ & _ & _ & -> & ->).
  split; split; try (intros [= ?]; lia); intros [=].
Qed.

(** X8: the token strings of a successful /next_token response are stripped:
    none begins or ends with a whitespace character, neither the top-level
    [token] nor the [token] of an entry. *)
Theorem next_token_tokens_stripped tk m text r :
  next_token_body tk m text = Some r →
  ∃ token (fields : list (pystr * R * R)),
    get "token" r = Some (JStr token) ∧
    get "probs" r = Some (JList (entry_of <$> fields)) ∧
    Forall (λ s, strip s = s ∧
                 ∀ c, head s = Some c ∨ last s = Some c → is_space c = false)
           (token :: ((λ f, f.1.1) <$> fields)).
Proof.
  intros (logits & top & e0 & _ & _ & Htoken & _ & Hprobs)
    %next_token_body_fields.
  eexists _, _. split_and!; [exact Htoken|exact Hprobs|].
  constructor.
  - split; [apply strip_idemp|apply strip_ends].
  - apply Forall_fmap, Forall_fmap, Forall_forall. intros e _. simpl.
    split; [apply strip_idemp|apply strip_ends].
Qed.

Lemma next_token_tokens_stripped_witness :
  ∃ r token (fields : list (pystr * R * R)),
    next_token_body demo_tokenizer demo_model (py "Hello world") = Some r ∧
    get "token" r = Some (JStr token) ∧
    get "probs" r = Some (JList (entry_of <$> fields)) ∧
    Forall (λ s, strip s = s ∧
                 ∀ c, head s = Some c ∨ last s = Some c → is_space c = false)
           (token :: ((λ f, f.1.1) <$> fields)).
Proof.
  destruct demo_next_token_success as [r Hr].
  destruct (next_token_tokens_stripped _ _ _ _ Hr)
    as (token & fields & Hfields).
  by exists r, token, fields.
Defined.

(** X9: /next_token reads the final position only: two runs whose models
    return the same last row of logits give the same response, whatever the
    texts, the other rows, the hidden states and the attentions. *)
Theorem next_token_last_row_only tk m1 m2 text1 text2 ids1 ids2 out1 out2 :
  tok_ids tk text1 = Some ids1 → tok_ids tk text2 = Some ids2 →
  forward m1 (Batch1 ids1) None = Some out1 →
  forward m2 (Batch1 ids2) None = Some out2 →
  last (unbatch (out_logits out1)) = last (unbatch (out_logits out2)) →
  next_token_prediction (Some tk) (Some m1) text1
  = next_token_prediction (Some tk) (Some m2) text2.
Proof.
  intros Hids1 Hids2 Hout1 Hout2 Hlast.
  unfold next_token_prediction, next_token_body, tok_encode.
  rewrite Hids1, Hids2. simpl. rewrite Hout1, Hout2. simpl.
  by rewrite Hlast.
Qed.

Lemma next_token_last_row_only_witness :
  next_token_prediction (Some demo_tokenizer) (Some demo_model)
    (py "Hello world")
  = next_token_prediction (Some demo_tokenizer) (Some demo_model)
      (py "the cat the cat").
Proof.
  eapply next_token_last_row_only; reflexivity.
Defined.

(** ** /residual_stream, further *)

(** The two loops run through exactly when every layer has a row for each
    token index. *)
Lemma token_layer_values_is_Some hs nt :
  is_Some (token_layer_values hs nt (length hs)) ↔
  Forall (λ h, nt ≤ length (unbatch h))%nat hs.
Proof.
  unfold token_layer_values. rewrite mapM_is_Some, !Forall_forall. split.
  - intros Hall h [l Hl]%list_elem_of_lookup.
    destruct nt as [|t]; [lia|].
    assert (Ht : t ∈ seq 0 (S t)) by (apply elem_of_seq; lia).
    specialize (Hall t Ht). simpl in Hall.
    rewrite mapM_is_Some, Forall_forall in Hall.
    assert (Hlin : l ∈ seq 0 (length hs)).
    { apply elem_of_seq. apply lookup_lt_Some in Hl. lia. }
    specialize (Hall l Hlin). simpl in Hall. rewrite Hl in Hall. simpl in Hall.
    destruct (unbatch h !! t) as [vec|] eqn:Hvec; [|by destruct Hall].
    apply lookup_lt_Some in Hvec. lia.
  - intros Hall t Ht%elem_of_seq. simpl.
    apply mapM_is_Some, Forall_forall. intros l Hl%elem_of_seq. simpl.
    destruct (lookup_lt_is_Some_2 hs l) as [h Hh]; [lia|]. rewrite Hh. simpl.
    destruct (lookup_lt_is_Some_2 (unbatch h) t) as [vec Hvec].
    { apply list_elem_of_lookup_2, Hall in Hh. lia. }
    rewrite Hvec. by eexists.
Qed.

(** X10: /residual_stream succeeds exactly when the tokenizer and the model
    return, there is at least one hidden state, and no layer has fewer rows
    than the first. *)
Theorem residual_stream_success_iff tk m text :
  is_Some (residual_stream_body tk m text) ↔
  ∃ ids out hs0,
    tok_ids tk text = Some ids ∧
    forward m (Batch1 ids) (Some (Batch1 (replicate (length ids) 1)))
    = Some out ∧
    out_hidden_states out !! 0%nat = Some hs0 ∧
    Forall (λ h, length (unbatch hs0) ≤ length (unbatch h))%nat
           (out_hidden_states out).
Proof.
  split.
  - intros [r (ids & out & hs0 & values & Hids & Hout & Hhs0 & Hvalues & _)
              %residual_stream_body_Some].
    exists ids, out, hs0. split_and!; try done.
    apply token_layer_values_is_Some. by eexists.
  - intros (ids & out & hs0 & Hids & Hout & Hhs0 & Hall).
    apply token_layer_values_is_Some in Hall as [values Hvalues].
    unfold residual_stream_body, tok_call. rewrite Hids. simpl.
    rewrite Hout. simpl. rewrite Hhs0. simpl. rewrite Hvalues. by eexists.
Qed.

(** X11: with the model loaded, [num_layers] is zero exactly when the [except]
    clause of /residual_stream ran: a successful response counts at least
    one layer, also for a text without tokens. *)
Theorem residual_stream_num_layers_zero_iff tk m text :
  get "num_layers" (get_residual_stream (Some tk) (Some m) text)
  = Some (JInt 0)
  ↔ residual_stream_body tk m text = None.
Proof.
  unfold get_residual_stream.
  destruct (residual_stream_body tk m text) as [r|] eqn:Hr; [|done].
  apply residual_stream_body_Some in Hr
    as (ids & out & hs0 & values & _ & _ & Hhs0 & _ & ->).
  apply lookup_lt_Some in Hhs0. split; [|done]. intros [= ?]. lia.
Qed.

(** X12: under the model's contract on rows, [tokens] and [layer_values] of a
    successful /residual_stream response have the same length, that of the
    input ids. *)
Theorem residual_stream_tokens_aligned tk m text r :
  model_hidden_rows m →
  residual_stream_body tk m text = Some r →
  ∃ ids, tok_ids tk text = Some ids ∧
    get "tokens" r ≫= jlen = Some (length ids) ∧
    get "layer_values" r ≫= jlen = Some (length ids).
Proof.
  intros Hrows (ids & out & hs0 & values & Hids & Hout & Hhs0 & Hvalues & ->)
    %residual_stream_body_Some.
  exists ids. split; [done|]. split; simpl.
  - unfold convert_ids_to_tokens. by rewrite !length_fmap.
  - apply token_layer_values_Some in Hvalues as (Hlen & _).
    rewrite length_fmap, Hlen. f_equal.
    apply list_elem_of_lookup_2 in Hhs0.
    by apply (proj1 (Forall_forall _ _) (Hrows _ _ _ Hout)) in Hhs0.
Qed.

Lemma residual_stream_tokens_aligned_witness :
  ∃ ids, tok_ids demo_tokenizer (py "Hello world") = Some ids ∧
    get "tokens"
        (get_residual_stream (Some demo_tokenizer) (Some demo_model)
           (py "Hello world")) ≫= jlen = Some (length ids) ∧
    get "layer_values"
        (get_residual_stream (Some demo_tokenizer) (Some demo_model)
           (py "Hello world")) ≫= jlen = Some (length ids).
Proof.
  apply (residual_stream_tokens_aligned demo_tokenizer demo_model
           (py "Hello world") _ demo_model_hidden_rows).
  reflexivity.
Defined.

(** ** /attention, further *)

(** X13: with the model loaded, /attention answers its failure dictionary
    exactly when the tokenizer raises, the model raises, or the model
    returns no attention tensor. *)
Theorem attention_failure_iff tk m text :
  get_attention (Some tk) (Some m) text = attention_failure ↔
  tok_ids tk text = None ∨
  ∃ ids, tok_ids tk text = Some ids ∧
    (forward m (Batch1 ids) (Some (Batch1 (replicate (length ids) 1))) = None ∨
     ∃ out, forward m (Batch1 ids) (Some (Batch1 (replicate (length ids) 1)))
            = Some out ∧ out_attentions out = []).
Proof.
  unfold get_attention, attention_body, tok_call.
  destruct (tok_ids tk text) as [ids|]; simpl; [|naive_solver].
  destruct (forward m _ _) as [out|] eqn:Hout; simpl; [|naive_solver].
  destruct (out_attentions out) as [|a att] eqn:Hatt; simpl; [naive_solver|].
  split; [intros [=]|].
  intros [[=]|(ids' & [= <-] & [Hnone|(out' & Hout' & Hnil)])]; congruence.
Qed.

(** ** /embeddings, further *)

Lemma np_shape1_rect X w :
  X ≠ [] → Forall (λ row, length row = w) X → np_shape1 X = Some w.
Proof.
  destruct X as [|row X]; [done|]. intros _ [Hrow HX]%Forall_cons. simpl.
  assert (Hall : forallb (λ r', length r' =? length row)%nat X = true).
  { apply forallb_forall. intros r' Hr'%list_elem_of_In.
    apply Nat.eqb_eq. rewrite Hrow.
    by apply (proj1 (Forall_forall _ _) HX). }
  by rewrite Hall, Hrow.
Qed.

Lemma embeddings3d_of_raising pca data :
  (∀ X, fit_transform pca X = None) → embeddings3d_of pca data = [].
Proof.
  intros Hpca. unfold embeddings3d_of.
  destruct (last data) as [last_hidden|]; [|done].
  destruct (0 <? length last_hidden)%nat; [|done].
  destruct (np_shape1 last_hidden) as [w|]; [cbn -[Nat.leb]|done].
  destruct (3 <=? w)%nat; [|done]. by rewrite Hpca.
Qed.

(** X14: a solver that raises does not fail the request: /embeddings still
    answers the layer count and all the hidden states, with an empty
    projection. *)
Theorem embeddings_survives_pca_failure tk m pca text ids out :
  tok_ids tk text = Some ids →
  forward m (Batch1 ids) (Some (Batch1 (replicate (length ids) 1)))
  = Some out →
  (∀ X, fit_transform pca X = None) →
  get_embeddings (Some tk) (Some m) pca text
  = JDict [("num_layers", JInt (Z.of_nat (length (out_hidden_states out))));
           ("hidden_states",
            JList ((λ layer, mat_tolist (unbatch layer))
                     <$> out_hidden_states out));
           ("embeddings3d", JList [])].
Proof.
  intros Hids Hout Hpca. unfold get_embeddings.
  destruct (embeddings_body tk m pca text) as [r|] eqn:Hr.
  - apply embeddings_body_Some in Hr as (ids' & out' & Hids' & Hout' & ->).
    rewrite Hids in Hids'. injection Hids' as <-.
    rewrite Hout in Hout'. injection Hout' as <-.
    rewrite (embeddings3d_of_raising _ _ Hpca).
    unfold cube_tolist. by rewrite <-list_fmap_compose.
  - unfold embeddings_body, tok_call in Hr. rewrite Hids in Hr.
    simpl in Hr. by rewrite Hout in Hr.
Qed.

Lemma embeddings_survives_pca_failure_witness :
  get "embeddings3d"
      (get_embeddings (Some demo_tokenizer) (Some demo_model)
         {| fit_transform := λ _, None |} (py "the cat the cat"))
  = Some (JList []) ∧
  get "num_layers"
      (get_embeddings (Some demo_tokenizer) (Some demo_model)
         {| fit_transform := λ _, None |} (py "the cat the cat"))
  = Some (JInt 3).
Proof.
  rewrite (embeddings_survives_pca_failure demo_tokenizer demo_model
             {| fit_transform := λ _, None |} (py "the cat the cat")
             [1169; 3797; 262; 3797] _ eq_refl eq_refl (λ _, eq_refl)).
  split; reflexivity.
Defined.

(** X15: when the last layer has rows of one width of at least three and the
    solver returns, [embeddings3d] is what the solver returned for the last
    layer; no other layer is projected. *)
Theorem embeddings_projection_is_pca tk m pca text ids out last_hidden w E :
  tok_ids tk text = Some ids →
  forward m (Batch1 ids) (Some (Batch1 (replicate (length ids) 1)))
  = Some out →
  last (out_hidden_states out) = Some last_hidden →
  unbatch last_hidden ≠ [] →
  (3 ≤ w)%nat →
  Forall (λ row, length row = w) (unbatch last_hidden) →
  fit_transform pca (unbatch last_hidden) = Some E →
  get "embeddings3d" (get_embeddings (Some tk) (Some m) pca text)
  = Some (JList ((λ row, JList (JFloat <$> row)) <$> E)).
Proof.
  intros Hids Hout Hlast Hne Hw Hrect Hpca. unfold get_embeddings.
  destruct (embeddings_body tk m pca text) as [r|] eqn:Hr.
  - apply embeddings_body_Some in Hr as (ids' & out' & Hids' & Hout' & ->).
    rewrite Hids in Hids'. injection Hids' as <-.
    rewrite Hout in Hout'. injection Hout' as <-.
    assert (HE : embeddings3d_of pca (unbatch <$> out_hidden_states out) = E).
    { unfold embeddings3d_of. rewrite fmap_last, Hlast. simpl.
      destruct (unbatch last_hidden) as [|row X] eqn:HX; [done|].
      rewrite (np_shape1_rect (row :: X) w) by done. cbn -[Nat.leb].
      destruct w as [|[|[|w']]]; [lia..|]. simpl. by rewrite Hpca. }
    by rewrite HE.
  - unfold embeddings_body, tok_call in Hr. rewrite Hids in Hr.
    simpl in Hr. by rewrite Hout in Hr.
Qed.

Lemma embeddings_projection_is_pca_witness :
  ∃ E, length E = 4%nat ∧
    get "embeddings3d"
        (get_embeddings (Some demo_tokenizer) (Some demo_model) demo_pca
           (py "the cat the cat"))
    = Some (JList ((λ row, JList (JFloat <$> row)) <$> E)).
Proof.
  eexists. split; cycle 1.
  - apply (embeddings_projection_is_pca demo_tokenizer demo_model demo_pca
             (py "the cat the cat") [1169; 3797; 262; 3797] _ _ 4 _
             eq_refl eq_refl eq_refl);
      [done|lia|repeat constructor|reflexivity].
  - reflexivity.
Defined.

(** X16: with the model loaded, /embeddings answers its failure dictionary
    exactly when the tokenizer raises, the model raises, or the model
    returns no hidden state; the solver has no part in it. *)
Theorem embeddings_failure_iff tk m pca text :
  get_embeddings (Some tk) (Some m) pca text = embeddings_failure ↔
  tok_ids tk text = None ∨
  ∃ ids, tok_ids tk text = Some ids ∧
    (forward m (Batch1 ids) (Some (Batch1 (replicate (length ids) 1))) = None ∨
     ∃ out, forward m (Batch1 ids) (Some (Batch1 (replicate (length ids) 1)))
            = Some out ∧ out_hidden_states out = []).
Proof.
  unfold get_embeddings, embeddings_body, tok_call.
  destruct (tok_ids tk text) as [ids|]; simpl; [|naive_solver].
  destruct (forward m _ _) as [out|] eqn:Hout; simpl; [|naive_solver].
  destruct (out_hidden_states out) as [|h hs] eqn:Hhs; simpl; [naive_solver|].
  split; [intros [=]|].
  intros [[=]|(ids' & [= <-] & [Hnone|(out' & Hout' & Hnil)])]; congruence.
Qed.

(** ** Across the endpoints *)

(** X17: for one text, /residual_stream and /embeddings count the same layers,
    and that count is the length of [hidden_states] of /embeddings. *)
Theorem num_layers_agree tk m pca text r1 r2 :
  residual_stream_body tk m text = Some r1 →
  embeddings_body tk m pca text = Some r2 →
  ∃ n, get "num_layers" r1 = Some (JInt (Z.of_nat n)) ∧
       get "num_layers" r2 = Some (JInt (Z.of_nat n)) ∧
       get "hidden_states" r2 ≫= jlen = Some n ∧
       (1 ≤ n)%nat.
Proof.
  intros (ids & out & hs0 & values & Hids & Hout & Hhs0 & _ & ->)
           %residual_stream_body_Some
         (ids' & out' & Hids' & Hout' & ->)%embeddings_body_Some.
  rewrite Hids in Hids'. injection Hids' as <-.
  rewrite Hout in Hout'. injection Hout' as <-.
  exists (length (out_hidden_states out)). split_and!; try done.
  - simpl. by rewrite !length_fmap.
  - apply lookup_lt_Some in Hhs0. lia.
Qed.

Lemma num_layers_agree_witness :
  ∃ n,
    get "num_layers"
        (get_residual_stream (Some demo_tokenizer) (Some demo_model)
           (py "Hello world")) = Some (JInt (Z.of_nat n)) ∧
    get "num_layers"
        (get_embeddings (Some demo_tokenizer) (Some demo_model) demo_pca
           (py "Hello world")) = Some (JInt (Z.of_nat n)) ∧
    get "hidden_states"
        (get_embeddings (Some demo_tokenizer) (Some demo_model) demo_pca
           (py "Hello world")) ≫= jlen = Some n ∧
    (1 ≤ n)%nat.
Proof.
  apply (num_layers_agree demo_tokenizer demo_model demo_pca
           (py "Hello world")); reflexivity.
Defined.

(** X18: for one text, the display tokens of /tokenize are the tokens of
    /residual_stream cleaned and deduplicated, and /tokenize has as many
    ids as /residual_stream has tokens. *)
Theorem tokenize_tokens_of_residual_tokens tk m text r1 r2 :
  tokenize_body tk text = Some r1 →
  residual_stream_body tk m text = Some r2 →
  ∃ raw,
    get "tokens" r2 = Some (JList (JStr <$> raw)) ∧
    get "tokens" r1
    = Some (JList (JStr <$> dedup_first_seen (clean_token <$> raw))) ∧
    get "input_ids" r1 ≫= jlen = Some (length raw).
Proof.
  intros (ids & Hids & ->)%tokenize_body_Some
         (ids' & out & hs0 & values & Hids' & _ & _ & _ & ->)
           %residual_stream_body_Some.
  rewrite Hids in Hids'. injection Hids' as <-.
  exists (convert_ids_to_tokens tk ids). split_and!; [done| |].
  - simpl. by rewrite tokenize_loop_display.
  - simpl. unfold convert_ids_to_tokens. by rewrite !length_fmap.
Qed.

Lemma tokenize_tokens_of_residual_tokens_witness :
  ∃ raw,
    get "tokens"
        (get_residual_stream (Some demo_tokenizer) (Some demo_model)
           (py "the cat the cat")) = Some (JList (JStr <$> raw)) ∧
    get "tokens" (tokenize_text (Some demo_tokenizer) (py "the cat the cat"))
    = Some (JList (JStr <$> dedup_first_seen (clean_token <$> raw))) ∧
    get "input_ids"
        (tokenize_text (Some demo_tokenizer) (py "the cat the cat")) ≫= jlen
    = Some (length raw).
Proof.
  apply (tokenize_tokens_of_residual_tokens demo_tokenizer demo_model
           (py "the cat the cat")).
  - vm_compute. reflexivity.
  - reflexivity.
Defined.

(** ** Start-up *)

(** X19: after start-up the tokenizer and the model are loaded together or not
    at all: they are loaded exactly when both loads succeed.  So when only
    the model fails to load, /tokenize answers its failure dictionary for
    every text, although it reads the tokenizer alone.  After a successful
    start-up the pad token is unset only if the tokenizer came with neither
    a pad token nor an end-of-text token. *)
Theorem load_all_or_nothing tp mp :
  (is_Some (ses_tokenizer (load tp mp)) ↔ is_Some (ses_model (load tp mp))) ∧
  (is_Some (ses_tokenizer (load tp mp)) ↔ is_Some tp ∧ is_Some mp) ∧
  (∀ text,
     tokenize_text (ses_tokenizer (load tp None)) text = tokenize_failure) ∧
  (∀ pt m,
     ses_pad_token (load (Some pt) (Some m)) = None
     ↔ pt_pad_token pt = None ∧ pt_eos_token pt = None).
Proof.
  split_and!.
  - destruct tp as [pt|], mp as [m|]; simpl;
      split; intros [x Hx]; first [discriminate Hx|by eexists].
  - destruct tp as [pt|], mp as [m|]; simpl;
      (split;
       [intros [x Hx]; first [discriminate Hx|split; by eexists]
       |intros [[x Hx] [y Hy]];
        first [discriminate Hx|discriminate Hy|by eexists]]).
  - intros text. by destruct tp.
  - intros pt m. simpl. destruct (pt_pad_token pt); naive_solver.
Qed.
